(** * Workflow notification for Slack: the aggregation, formatting and
      message-assembly core of [src/main.ts]

    The action reads the jobs of a finished workflow run, derives one
    attachment colour, renders one attachment and posts it to a webhook.
    This development embeds the pure part of [main], [computeDuration] and
    [handleError], and proves the properties the specification states
    about them.

    Conventions of the embedding:
    - a JavaScript number is an exact rational ([Q]) where the source
      divides, and an integer ([Z]) where the source has applied
      [Math.floor]; binary floating-point rounding is not modelled;
    - a [Date] is its [valueOf ()], the milliseconds since the epoch
      (an invalid date, whose value is [NaN], is outside the model);
    - a string is a [string] of bytes (UTF-8 for the three icons);
    - an object used as a record is a [Record]; the payload object, whose
      key set depends on the configuration, is a [gmap string _]. *)

From Stdlib Require Import QArith Qround Ascii.
From stdpp Require Import base strings list gmap pretty.

Local Open Scope string_scope.
Local Open Scope Z_scope.

(** ** JavaScript primitives used by the source *)

Module Js.

(** [Math.floor] on a rational: the result is an integer. *)
Definition Math_floor (x : Q) : Z := Qfloor x.

(** Truncation toward zero, as used by the [%] operator. *)
Definition trunc (x : Q) : Z :=
  if Qle_bool 0 x then Qfloor x else Qceiling x.

(** [a % b] on numbers that need not be integers: the remainder has the
    sign of the dividend, [a - b * trunc (a / b)]. *)
Definition rem (a b : Q) : Q := (a - b * inject_Z (trunc (a / b)))%Q.

(** The white space that [String.prototype.trim] strips, restricted to
    the one-byte characters: tab, line feed, vertical tab, form feed,
    carriage return and space. *)
Definition is_white_space (a : ascii) : bool :=
  let n := nat_of_ascii a in
  bool_decide (n = 9 ∨ n = 10 ∨ n = 11 ∨ n = 12 ∨ n = 13 ∨ n = 32)%nat.

Fixpoint trimStart (s : string) : string :=
  match s with
  | String a s' => if is_white_space a then trimStart s' else s
  | EmptyString => EmptyString
  end.

Fixpoint trimEnd (s : string) : string :=
  match s with
  | String a s' =>
      match trimEnd s' with
      | EmptyString => if is_white_space a then EmptyString else String a EmptyString
      | t => String a t
      end
  | EmptyString => EmptyString
  end.

(** [s.trim ()] *)
Definition trim (s : string) : string := trimEnd (trimStart s).

(** [`${n}`] for an integer-valued number: its decimal digits, with a
    leading minus sign when negative. *)
Definition number_to_string (n : Z) : string := pretty n.

(** The line feed written [\n] in the source's template literals. *)
Definition LF : string := String "010"%char EmptyString.

(** What a property read can yield in this program: a string, or a
    function or object, of which only its text in a template literal is
    kept. *)
Inductive value :=
| VString (s : string)
| VObject (text : string).

Definition truthy (v : value) : bool :=
  match v with
  | VString s => bool_decide (s ≠ "")
  | VObject _ => true
  end.

(** [`${v}`] *)
Definition to_string (v : value) : string :=
  match v with
  | VString s => s
  | VObject text => text
  end.

(** The members every plain object inherits from [Object.prototype],
    each with its text in a template literal as Node prints it. *)
Definition native (f : string) : string :=
  "function " +:+ f +:+ "() { [native code] }".

Definition Object_prototype : gmap string string :=
  list_to_map
    (("__proto__", "[object Object]") ::
     ("constructor", native "Object") ::
     ((λ f : string, (f, native f)) <$>
        ["__defineGetter__"; "__defineSetter__"; "__lookupGetter__";
         "__lookupSetter__"; "hasOwnProperty"; "isPrototypeOf";
         "propertyIsEnumerable"; "toLocaleString"; "toString"; "valueOf"])).

(** [o[k]] on an object literal [o] of string properties: an own
    property first, an inherited member otherwise, [undefined] ([None])
    when there is neither. *)
Definition get (o : gmap string string) (k : string) : option value :=
  match o !! k with
  | Some s => Some (VString s)
  | None => VObject <$> Object_prototype !! k
  end.

(** [x || d] where [x] is a property read and [d] a string. *)
Definition or_else (x : option value) (d : string) : value :=
  match x with
  | Some v => if truthy v then v else VString d
  | None => VString d
  end.

End Js.

(** ** [computeDuration] *)

(** A [Date], reduced to what the source reads of it. *)
Record Date := new_Date { valueOf : Z }.

(** The inner arrow function [format_duration]. *)
Definition format_duration (value : Z) (text : string) (hide_on_zero : bool)
  : string :=
  if bool_decide (value ≤ 0) && hide_on_zero then ""
  else Js.number_to_string value +:+ text +:+ " ".

(** The four numeric components the function computes before formatting:
    [(days, hours, minutes, seconds)]. *)
Definition duration_parts (start end_ : Date) : Z * Z * Z * Z :=
  let duration := valueOf end_ - valueOf start in
  let delta := (inject_Z duration / 1000)%Q in
  let days := Js.Math_floor (delta / 86400)%Q in
  let delta := (delta - inject_Z days * 86400)%Q in
  let hours := Z.rem (Js.Math_floor (delta / 3600)%Q) 24 in
  let delta := (delta - inject_Z hours * 3600)%Q in
  let minutes := Z.rem (Js.Math_floor (delta / 60)%Q) 60 in
  let delta := (delta - inject_Z minutes * 60)%Q in
  let seconds := Js.Math_floor (Js.rem delta 60) in
  (days, hours, minutes, seconds).

Definition computeDuration (start end_ : Date) : string :=
  let '(days, hours, minutes, seconds) := duration_parts start end_ in
  format_duration days "d" true +:+
  format_duration hours "h" true +:+
  format_duration minutes "m" true +:+
  Js.trim (format_duration seconds "s" false).


(** ** Data supplied by the collaborators *)

Module Job.
(** One element of [jobsResponse.jobs]. The two timestamps are the
    [Date]s the source builds from [started_at] and [completed_at]. *)
Record t := {
  name : string;
  html_url : string;
  started_at : Date;
  completed_at : Date;
  status : string;
  conclusion : string }.
End Job.

Module PullRequest.
(** One element of [workflowRun.pull_requests]; [head_ref] and
    [base_ref] stand for [pr.head.ref] and [pr.base.ref]. *)
Record t := {
  number : Z;
  head_ref : string;
  base_ref : string;
  title : string }.
End PullRequest.

Module Repository.
Record t := { html_url : string; full_name : string }.
End Repository.

Module WorkflowRun.
Record t := {
  html_url : string;
  run_number : Z;
  head_branch : string;
  created_at : Date;
  updated_at : Date;
  repository : Repository.t;
  pull_requests : list PullRequest.t }.
End WorkflowRun.

Module Commit.
Record t := { html_url : string; sha : string }.
End Commit.

Module Context.
(** [context.payload.pull_request], of which the source reads the
    title only; [None] for a title that is [null] or missing. *)
Record pull_request := { title : option string }.

(** The [context] of [@actions/github], with the one environment
    variable the source reads directly. *)
Record t := {
  eventName : string;
  workflow : string;
  payload_pull_request : option pull_request;
  GITHUB_ACTOR : option string }.
End Context.

Module Inputs.
(** What [core.getInput] returned for each input; the empty string for
    an input that is not configured. *)
Record t := {
  slack_webhook_url : string;
  repo_token : string;
  include_jobs : string;
  channel : string;
  name : string;
  icon_url : string;
  icon_emoji : string }.
End Inputs.

(** ** The composed document *)

Inductive ResultColors := Good | Warning | Danger.

Global Instance ResultColors_eq_dec : EqDecision ResultColors.
Proof. solve_decision. Defined.

Definition ResultColors_value (c : ResultColors) : string :=
  match c with
  | Good => "good"
  | Warning => "warning"
  | Danger => "danger"
  end.

Module Field.
Record t := { title : string; short : bool; value : string }.
End Field.

Module Attachment.
Record t := {
  mrkdwn_in : list string;
  color : ResultColors;
  author_icon : string;
  author_link : string;
  author_name : option string;
  title : string;
  text : string;
  fields : list Field.t;
  footer_icon : string;
  footer : string }.
End Attachment.

(** A value of the payload object: the attachment list, a string, or
    [null]. *)
Inductive PayloadValue :=
| Attachments (l : list Attachment.t)
| Str (s : string)
| Null.

(** ** The pure part of [main] *)

Definition completedJobs (jobs : list Job.t) : list Job.t :=
  filter (λ job, Job.status job = "completed" ∧ Job.conclusion job ≠ "skipped")
         jobs.

(** The [if / else if / else] that assigns [resultColor] and, on two of
    its branches, [jobFields]. [None] is a [jobFields] still
    [undefined]. *)
Definition styling (includeJobs : string) (completedJobs : list Job.t)
  : ResultColors * option (list Field.t) :=
  if forallb (λ job, bool_decide (Job.conclusion job ∈ ["success"; "skipped"]))
             completedJobs
  then (Good, if decide (includeJobs = "on-failure") then Some [] else None)
  else if existsb (λ job, bool_decide (Job.conclusion job = "cancelled"))
                  completedJobs
  then (Warning, if decide (includeJobs = "on-failure") then Some [] else None)
  else (Danger, None).

Definition resultColor (includeJobs : string) (completedJobs : list Job.t)
  : ResultColors :=
  fst (styling includeJobs completedJobs).

Definition statusIcons : gmap string string :=
  {[ "success" := "✓"; "cancelled" := "⃠"; "skipped" := "✗" ]}.

Definition jobIcon (conclusion : string) : Js.value :=
  Js.or_else (Js.get statusIcons conclusion) "✗".

(** The callback of [completedJobs.map]. *)
Definition jobField (job : Job.t) : Field.t :=
  let jobIcon := jobIcon (Job.conclusion job) in
  let jobProcessingTime :=
    computeDuration (Job.started_at job) (Job.completed_at job) in
  {| Field.title := "";
     Field.short := true;
     Field.value :=
       Js.to_string jobIcon +:+ " <" +:+ Job.html_url job +:+ "|" +:+
       Job.name job +:+ "> (" +:+ jobProcessingTime +:+ ")" |}.

Definition jobFields (includeJobs : string) (completedJobs : list Job.t)
  : list Field.t :=
  let jobFields := snd (styling includeJobs completedJobs) in
  let jobFields :=
    if decide (includeJobs = "false") then Some [] else jobFields in
  (* jobFields ??= completedJobs.map(...) *)
  default (jobField <$> completedJobs) jobFields.

Definition repoUrl (workflowRun : WorkflowRun.t) : string :=
  let repository := WorkflowRun.repository workflowRun in
  "<" +:+ Repository.html_url repository +:+ "|*" +:+
  Repository.full_name repository +:+ "*>".

Definition branchUrl (workflowRun : WorkflowRun.t) : string :=
  "<" +:+ Repository.html_url (WorkflowRun.repository workflowRun) +:+
  "/tree/" +:+ WorkflowRun.head_branch workflowRun +:+ "|" +:+
  WorkflowRun.head_branch workflowRun +:+ ">".

Definition workflowRunUrl (workflowRun : WorkflowRun.t) : string :=
  "<" +:+ WorkflowRun.html_url workflowRun +:+ "|#" +:+
  Js.number_to_string (WorkflowRun.run_number workflowRun) +:+ ">".

Definition commitUrl (commit : Commit.t) : string :=
  "<" +:+ Commit.html_url commit +:+ "|" +:+
  String.substring 0 6 (Commit.sha commit) +:+ " >".

Definition detailsString (context : Context.t) (workflowRun : WorkflowRun.t)
  : string :=
  let workflowProcessingTime :=
    computeDuration (WorkflowRun.created_at workflowRun)
                    (WorkflowRun.updated_at workflowRun) in
  Context.workflow context +:+ " " +:+ workflowRunUrl workflowRun +:+
  " completed in *" +:+ workflowProcessingTime +:+ "*" +:+ Js.LF.

Module PullRequestLine.
(** An element of the local array [pullRequests]. *)
Record t := { title : string; text : string }.
End PullRequestLine.

Definition pullRequests (context : Context.t) (workflowRun : WorkflowRun.t)
  : list PullRequestLine.t :=
  (λ pr,
     {| PullRequestLine.title :=
          "<" +:+ Repository.html_url (WorkflowRun.repository workflowRun) +:+
          "/pull/" +:+ Js.number_to_string (PullRequest.number pr) +:+ "|" +:+
          (* context.payload.pull_request?.title ?? '' *)
          default "" (Context.payload_pull_request context ≫= Context.title)
          +:+ " #" +:+ Js.number_to_string (PullRequest.number pr) +:+ ">";
        PullRequestLine.text :=
          "from `" +:+ PullRequest.head_ref pr +:+ "` to `" +:+
          PullRequest.base_ref pr +:+ "`" |})
  <$> WorkflowRun.pull_requests workflowRun.

Definition title (context : Context.t) (workflowRun : WorkflowRun.t)
    (commit : Commit.t) : string :=
  let title :=
    Context.eventName context +:+ " on " +:+ branchUrl workflowRun +:+ " " +:+
    commitUrl commit +:+ Js.LF in
  let pullRequests := pullRequests context workflowRun in
  if bool_decide (0 < length pullRequests)%nat
  then
    (* pullRequests[0].title; the index is in range under the guard *)
    default title (PullRequestLine.title <$> pullRequests !! 0%nat)
  else title.

Definition slackAttachment (inputs : Inputs.t) (context : Context.t)
    (workflowRun : WorkflowRun.t) (commit : Commit.t) (jobs : list Job.t)
  : Attachment.t :=
  let completedJobs := completedJobs jobs in
  let includeJobs := Inputs.include_jobs inputs in
  let actor := default "undefined" (Context.GITHUB_ACTOR context) in
  {| Attachment.mrkdwn_in := ["text"];
     Attachment.color := resultColor includeJobs completedJobs;
     Attachment.author_icon := "https://github.com/" +:+ actor +:+ ".png?size=32";
     Attachment.author_link := "https://github.com/" +:+ actor;
     Attachment.author_name := Context.GITHUB_ACTOR context;
     Attachment.title := title context workflowRun commit;
     Attachment.text := detailsString context workflowRun;
     Attachment.fields := jobFields includeJobs completedJobs;
     Attachment.footer_icon := "https://github.githubassets.com/favicon.ico";
     Attachment.footer := repoUrl workflowRun |}.

(** [value !== null] *)
Definition not_null (v : PayloadValue) : bool :=
  match v with
  | Null => false
  | _ => true
  end.

(** [s || null] for a string [s]. *)
Definition or_null (s : string) : PayloadValue :=
  if decide (s = "") then Null else Str s.

(** The object [slack], as the list of its entries in source order. *)
Definition slack (inputs : Inputs.t) : list (string * PayloadValue) :=
  [ ("channel", or_null (Inputs.channel inputs));
    ("username", or_null (Inputs.name inputs));
    ("icon_url", or_null (Inputs.icon_url inputs));
    ("icon_emoji", or_null (Inputs.icon_emoji inputs)) ].

(** [{attachments: [slackAttachment], ...Object.fromEntries(...)}]: the
    spread entries are written after [attachments] and would replace it. *)
Definition slack_payload_body (inputs : Inputs.t) (context : Context.t)
    (workflowRun : WorkflowRun.t) (commit : Commit.t) (jobs : list Job.t)
  : gmap string PayloadValue :=
  let entries := filter (λ kv, not_null kv.2) (slack inputs) in
  (list_to_map entries : gmap string PayloadValue) ∪
  {[ "attachments" :=
       Attachments [slackAttachment inputs context workflowRun commit jobs] ]}.

(** ** [handleError] and the two places it is installed *)

(** The values that reach the handler: [undefined], [null], a string, or
    an [Error] object with its [name] and [message]. *)
Inductive Thrown :=
| Undefined
| ThrownNull
| ThrownString (s : string)
| ErrorObject (name message : string).

Definition Thrown_truthy (err : Thrown) : bool :=
  match err with
  | Undefined | ThrownNull => false
  | ThrownString s => bool_decide (s ≠ "")
  | ErrorObject _ _ => true
  end.

(** [err.message]; [None] is [undefined], which a string has for it. *)
Definition Thrown_message (err : Thrown) : option string :=
  match err with
  | ErrorObject _ message => Some message
  | _ => None
  end.

(** The condition [err && err.message]. *)
Definition has_message (err : Thrown) : bool :=
  Thrown_truthy err &&
  match Thrown_message err with
  | Some message => bool_decide (message ≠ "")
  | None => false
  end.

(** [`${err}`]; for an [Error] object this is [Error.prototype.toString]. *)
Definition Thrown_to_string (err : Thrown) : string :=
  match err with
  | Undefined => "undefined"
  | ThrownNull => "null"
  | ThrownString s => s
  | ErrorObject name message =>
      if decide (name = "") then message
      else if decide (message = "") then name
      else name +:+ ": " +:+ message
  end.

(** The calls into [@actions/core] the handler makes, in order. *)
Inductive Effect :=
| core_error (err : Thrown)
| core_setFailed (message : string).

Definition handleError (err : Thrown) : list Effect :=
  core_error err ::
  (if has_message err
   then [core_setFailed (default "" (Thrown_message err))]
   else [core_setFailed ("Unhandled Error: " +:+ Thrown_to_string err)]).

(** How [main ()] settles, and [main().catch(handleError)]. *)
Inductive Settled :=
| Fulfilled
| Rejected (err : Thrown).

Definition main_catch (outcome : Settled) : list Effect :=
  match outcome with
  | Fulfilled => []
  | Rejected err => handleError err
  end.

(** [process.on('unhandledRejection', handleError)]: each rejection nobody
    handled is passed to the handler. *)
Definition unhandledRejection (reasons : list Thrown) : list Effect :=
  reasons ≫= handleError.

(** ** [main] with its collaborators *)

(** What a call into a collaborator does: it returns a value or throws
    (an awaited promise fulfils or rejects). *)
Inductive Outcome (A : Type) :=
| Returns (a : A)
| Throws (err : Thrown).
Arguments Returns {A} a.
Arguments Throws {A} err.

Module World.
(** The collaborators of one invocation. [getInput_required] is
    [core.getInput (name, {required: true})], which may throw; [getInput]
    is the call without options; [getOctokit] is the construction of the
    client from the token, which may throw; [context_repo] is the getter
    [context.repo], read to build the arguments of each fetch, which throws
    when the repository is not known; the three fetches are the awaited
    octokit calls; [send] is [slackWebhook.send] for a webhook URL and a
    body, [None] when it resolves. [core.setSecret], the [IncomingWebhook]
    constructor and the composition of the payload from the fetched data
    are taken to return. *)
Record t := {
  getInput_required : string → Outcome string;
  getInput : string → string;
  getOctokit : string → Outcome unit;
  context_repo : Outcome unit;
  getWorkflowRun : Outcome WorkflowRun.t;
  getCommit : Outcome Commit.t;
  listJobsForWorkflowRun : Outcome (list Job.t);
  context : Context.t;
  send : string → gmap string PayloadValue → option Thrown }.
End World.

(** The calls [main] makes, in the order it makes them. *)
Inductive Call :=
| call_getInput (name : string) (required : bool)
| call_setSecret (secret : string)
| call_getOctokit (token : string)
| call_getWorkflowRun
| call_getCommit
| call_listJobsForWorkflowRun
| call_send (webhookUrl : string) (body : gmap string PayloadValue)
| call_setFailed (err : Thrown).

(** A computation that logs its calls and returns or throws. *)
Definition Action (A : Type) : Type := list Call * Outcome A.

Global Instance Action_ret : MRet Action := λ A a, ([], Returns a).

Global Instance Action_bind : MBind Action := λ A B k m,
  match m with
  | (calls, Returns a) => let '(calls', b) := k a in ((calls ++ calls')%list, b)
  | (calls, Throws err) => (calls, Throws err)
  end.

(** One call with its outcome. *)
Definition perform {A : Type} (c : Call) (outcome : Outcome A) : Action A :=
  ([c], outcome).

(** [try { await slackWebhook.send(body) } catch (err) { core.setFailed(err) }] *)
Definition try_send (w : World.t) (webhookUrl : string)
    (body : gmap string PayloadValue) : Action unit :=
  match World.send w webhookUrl body with
  | None => perform (call_send webhookUrl body) (Returns ())
  | Some err =>
      perform (call_send webhookUrl body) (Returns ());;
      perform (call_setFailed err) (Returns ())
  end.

(** Reading [context.repo]: no call is logged, the getter returns or
    throws. *)
Definition read_context_repo (w : World.t) : Action unit :=
  ([], World.context_repo w).

Definition main (w : World.t) : Action unit :=
  webhookUrl ← perform (call_getInput "slack_webhook_url" true)
                  (World.getInput_required w "slack_webhook_url");
  token ← perform (call_getInput "repo_token" true)
             (World.getInput_required w "repo_token");
  includeJobs ← perform (call_getInput "include_jobs" true)
                   (World.getInput_required w "include_jobs");
  channel ← perform (call_getInput "channel" false)
               (Returns (World.getInput w "channel"));
  name ← perform (call_getInput "name" false)
            (Returns (World.getInput w "name"));
  icon_url ← perform (call_getInput "icon_url" false)
                (Returns (World.getInput w "icon_url"));
  icon_emoji ← perform (call_getInput "icon_emoji" false)
                  (Returns (World.getInput w "icon_emoji"));
  perform (call_setSecret token) (Returns ());;
  perform (call_setSecret webhookUrl) (Returns ());;
  perform (call_getOctokit token) (World.getOctokit w token);;
  read_context_repo w;;
  workflowRun ← perform call_getWorkflowRun (World.getWorkflowRun w);
  read_context_repo w;;
  commit ← perform call_getCommit (World.getCommit w);
  read_context_repo w;;
  jobs ← perform call_listJobsForWorkflowRun (World.listJobsForWorkflowRun w);
  let inputs :=
    {| Inputs.slack_webhook_url := webhookUrl;
       Inputs.repo_token := token;
       Inputs.include_jobs := includeJobs;
       Inputs.channel := channel;
       Inputs.name := name;
       Inputs.icon_url := icon_url;
       Inputs.icon_emoji := icon_emoji |} in
  try_send w webhookUrl
    (slack_payload_body inputs (World.context w) workflowRun commit jobs).

(** How the promise of [main ()] settles. *)
Definition settle (outcome : Outcome unit) : Settled :=
  match outcome with
  | Returns _ => Fulfilled
  | Throws err => Rejected err
  end.

(** The whole script: [main().catch(handleError)]. The result is the calls
    of [main] and the calls of the handler. *)
Definition script (w : World.t) : list Call * list Effect :=
  let '(calls, outcome) := main w in
  (calls, main_catch (settle outcome)).

(** ** Auxiliary definitions for the statements *)

(** A unit that is rendered only when its value is positive, followed by
    one space. *)
Definition shown (value : Z) (unit : string) : string :=
  if bool_decide (0 < value) then Js.number_to_string value +:+ unit +:+ " "
  else "".

(** A string whose first character is not white space. *)
Definition starts_black (s : string) : Prop :=
  match s with
  | String a _ => Js.is_white_space a = false
  | EmptyString => False
  end.

(** The value an override contributes: the input when it is not empty,
    no entry otherwise. *)
Definition override (input : string) : option PayloadValue :=
  if decide (input = "") then None else Some (Str input).

(** Sample data. *)

Module Sample.

Definition repository : Repository.t :=
  {| Repository.html_url := "https://github.com/o/r";
     Repository.full_name := "o/r" |}.

Definition job : Job.t :=
  {| Job.name := "build";
     Job.html_url := "https://github.com/o/r/runs/7";
     Job.started_at := new_Date 1000;
     Job.completed_at := new_Date 66000;
     Job.status := "completed";
     Job.conclusion := "success" |}.

(** A completed job with the given conclusion. *)
Definition concluded (conclusion : string) : Job.t :=
  {| Job.name := conclusion;
     Job.html_url := "https://github.com/o/r/runs/8";
     Job.started_at := new_Date 0;
     Job.completed_at := new_Date 59000;
     Job.status := "completed";
     Job.conclusion := conclusion |}.

Definition pull_request : PullRequest.t :=
  {| PullRequest.number := 12;
     PullRequest.head_ref := "feature";
     PullRequest.base_ref := "main";
     PullRequest.title := "Add feature" |}.

Definition run (pull_requests : list PullRequest.t) : WorkflowRun.t :=
  {| WorkflowRun.html_url := "https://github.com/o/r/actions/runs/3";
     WorkflowRun.run_number := 14;
     WorkflowRun.head_branch := "main";
     WorkflowRun.created_at := new_Date 0;
     WorkflowRun.updated_at := new_Date 90000;
     WorkflowRun.repository := repository;
     WorkflowRun.pull_requests := pull_requests |}.

Definition commit : Commit.t :=
  {| Commit.html_url := "https://github.com/o/r/commit/0a1b2c3d";
     Commit.sha := "0a1b2c3d" |}.

(** A push: the event payload has no pull request. *)
Definition push : Context.t :=
  {| Context.eventName := "push";
     Context.workflow := "CI";
     Context.payload_pull_request := None;
     Context.GITHUB_ACTOR := Some "octocat" |}.

End Sample.

(** The two formats as the specification words them, for comparison with
    what the source composes. *)
Definition spec_default_title (eventName branchLink commitLink : string)
  : string :=
  eventName +:+ " on " +:+ branchLink +:+ " " +:+ commitLink.

Definition spec_entry_text (icon jobLink jobDuration : string) : string :=
  icon +:+ " " +:+ jobLink +:+ "(" +:+ jobDuration +:+ ")".

(** The link to a job: its name, pointing at its page. *)
Definition jobLink (job : Job.t) : string :=
  "<" +:+ Job.html_url job +:+ "|" +:+ Job.name job +:+ ">".

(** The title the source gives the line of a pull request: it reads the
    run, the event payload and the number of the pull request. *)
Definition pull_request_link (context : Context.t)
    (workflowRun : WorkflowRun.t) (n : Z) : string :=
  "<" +:+ Repository.html_url (WorkflowRun.repository workflowRun) +:+
  "/pull/" +:+ Js.number_to_string n +:+ "|" +:+
  default "" (Context.payload_pull_request context ≫= Context.title) +:+
  " #" +:+ Js.number_to_string n +:+ ">".

(** The calls that go over the network. *)
Definition is_network (c : Call) : bool :=
  match c with
  | call_getWorkflowRun | call_getCommit | call_listJobsForWorkflowRun
  | call_send _ _ => true
  | _ => false
  end.

Definition is_send (c : Call) : bool :=
  match c with
  | call_send _ _ => true
  | _ => false
  end.

(** The failure reports of a run: [core.setFailed] in [main] and in the
    handler. *)
Definition is_report (c : Call) : bool :=
  match c with
  | call_setFailed _ => true
  | _ => false
  end.

Definition is_handler_report (e : Effect) : bool :=
  match e with
  | core_setFailed _ => true
  | _ => false
  end.

Definition reports (run : list Call * list Effect) : nat :=
  length (filter is_report run.1) + length (filter is_handler_report run.2).

(** The inputs [main] has read when all three required ones returned. *)
Definition inputs_read (w : World.t) (webhookUrl token includeJobs : string)
  : Inputs.t :=
  {| Inputs.slack_webhook_url := webhookUrl;
     Inputs.repo_token := token;
     Inputs.include_jobs := includeJobs;
     Inputs.channel := World.getInput w "channel";
     Inputs.name := World.getInput w "name";
     Inputs.icon_url := World.getInput w "icon_url";
     Inputs.icon_emoji := World.getInput w "icon_emoji" |}.

(** A world in which every collaborator returns and the send resolves or
    rejects as given. *)
Definition Sample_world (send_result : option Thrown) : World.t :=
  {| World.getInput_required := λ name, Returns ("<" +:+ name +:+ ">");
     World.getInput := λ _, "";
     World.getOctokit := λ _, Returns ();
     World.context_repo := Returns ();
     World.getWorkflowRun := Returns (Sample.run []);
     World.getCommit := Returns Sample.commit;
     World.listJobsForWorkflowRun := Returns [Sample.job];
     World.context := Sample.push;
     World.send := λ _ _, send_result |}.

(** A world whose commit fetch rejects. *)
Definition Sample_world_no_commit : World.t :=
  {| World.getInput_required := λ name, Returns ("<" +:+ name +:+ ">");
     World.getInput := λ _, "";
     World.getOctokit := λ _, Returns ();
     World.context_repo := Returns ();
     World.getWorkflowRun := Returns (Sample.run []);
     World.getCommit := Throws (ErrorObject "HttpError" "Not Found");
     World.listJobsForWorkflowRun := Returns [Sample.job];
     World.context := Sample.push;
     World.send := λ _ _, None |}.

(** What [main] sends in [Sample_world]. *)
Definition Sample_url : string := "<slack_webhook_url>".

Definition Sample_body : gmap string PayloadValue :=
  slack_payload_body
    (inputs_read (Sample_world None) Sample_url "<repo_token>" "<include_jobs>")
    Sample.push (Sample.run []) Sample.commit [Sample.job].

(** A reader for the output of [computeDuration], used to show that the
    output determines the elapsed seconds: digits accumulate into [acc],
    a unit letter adds [acc] times the unit to [total], anything else is
    skipped. *)
Fixpoint read_units (total acc : Z) (s : string) : Z :=
  match s with
  | EmptyString => total
  | String a s' =>
      match Ascii.is_nat a with
      | Some n => read_units total (acc * 10 + Z.of_nat n) s'
      | None =>
          if decide (a = "d"%char) then read_units (total + acc * 86400) 0 s'
          else if decide (a = "h"%char) then read_units (total + acc * 3600) 0 s'
          else if decide (a = "m"%char) then read_units (total + acc * 60) 0 s'
          else if decide (a = "s"%char) then read_units (total + acc) 0 s'
          else read_units total acc s'
      end
  end.

(** How the colours of two job lists combine into the colour of the two
    lists together. *)
Definition merge_colors (a b : ResultColors) : ResultColors :=
  match a, b with
  | Warning, _ | _, Warning => Warning
  | Danger, _ | _, Danger => Danger
  | Good, Good => Good
  end.

(** The override inputs of a configuration that are not empty. *)
Definition configured_overrides (inputs : Inputs.t) : list string :=
  filter (λ input, input ≠ "")
    [Inputs.channel inputs; Inputs.name inputs; Inputs.icon_url inputs;
     Inputs.icon_emoji inputs].

(** * Properties *)

(** ** Arithmetic of [computeDuration] *)

Section DurationArithmetic.

Local Open Scope Q_scope.

(** A rational known to be the quotient of two integers has the integer
    quotient as its floor. *)
Lemma floor_of_quotient (q : Q) (m d : Z) :
  q == inject_Z m / inject_Z d → Js.Math_floor q = (m / d)%Z.
Proof.
  intros Hq. unfold Js.Math_floor. rewrite (Qfloor_comp _ _ Hq).
  symmetry. apply Zdiv_Qdiv.
Qed.

Lemma trunc_of_quotient (q : Q) (m d : Z) :
  (0 ≤ m)%Z → (0 < d)%Z →
  q == inject_Z m / inject_Z d → Js.trunc q = (m / d)%Z.
Proof.
  intros Hm Hd Hq. unfold Js.trunc.
  assert (0 <= q) as Hpos.
  { rewrite Hq. apply Qle_shift_div_l.
    - change 0 with (inject_Z 0). rewrite <- Zlt_Qlt. done.
    - rewrite Qmult_0_l. change 0 with (inject_Z 0). rewrite <- Zle_Qle. done. }
  apply Qle_bool_iff in Hpos. rewrite Hpos.
  by apply floor_of_quotient.
Qed.

(** The rational [delta] stays a number of milliseconds over 1000
    through the three subtractions. *)
Lemma delta_step (delta : Q) (m part unit : Z) :
  delta == inject_Z m / 1000 →
  delta - inject_Z part * inject_Z unit
  == inject_Z (m - part * (unit * 1000)) / 1000.
Proof.
  intros ->. unfold Zminus.
  rewrite inject_Z_plus, inject_Z_opp, !inject_Z_mult. field.
Qed.

Lemma floor_delta_over (delta : Q) (m unit : Z) :
  unit ≠ 0%Z →
  delta == inject_Z m / 1000 →
  Js.Math_floor (delta / inject_Z unit) = (m / (unit * 1000))%Z.
Proof.
  intros Hunit Hd.
  assert (¬ inject_Z unit == 0) as Hq.
  { change 0 with (inject_Z 0). by rewrite inject_Z_injective. }
  apply floor_of_quotient. rewrite Hd, inject_Z_mult.
  by field.
Qed.

(** The integer side: successive remainders of a millisecond count
    against the components of its whole seconds. *)
Lemma days_of_seconds (m : Z) :
  (m / 86400000 = m / 1000 / 86400)%Z.
Proof. Z.div_mod_to_equations; lia. Qed.

Lemma hours_of_seconds (m : Z) :
  ((m - m / 86400000 * 86400000) / 3600000 = (m / 1000 / 3600) mod 24)%Z.
Proof. Z.div_mod_to_equations; lia. Qed.

Lemma minutes_of_seconds (m : Z) :
  let m1 := (m - m / 86400000 * 86400000)%Z in
  ((m1 - m1 / 3600000 * 3600000) / 60000 = (m / 1000 / 60) mod 60)%Z.
Proof. cbv zeta. Z.div_mod_to_equations; lia. Qed.

Lemma seconds_of_seconds (m : Z) :
  let m1 := (m - m / 86400000 * 86400000)%Z in
  let m2 := (m1 - m1 / 3600000 * 3600000)%Z in
  ((m2 - m2 / 60000 * 60000) / 1000 = (m / 1000) mod 60)%Z.
Proof. cbv zeta. Z.div_mod_to_equations; lia. Qed.

Local Ltac euclid :=
  change (86400 * 1000)%Z with 86400000%Z;
  change (3600 * 1000)%Z with 3600000%Z;
  change (60 * 1000)%Z with 60000%Z;
  Z.div_mod_to_equations; lia.

Lemma duration_parts_closed (start end_ : Date) :
  duration_parts start end_ =
    let total := ((valueOf end_ - valueOf start) / 1000)%Z in
    (total / 86400, (total / 3600) mod 24, (total / 60) mod 60,
     total mod 60)%Z.
Proof.
  unfold duration_parts.
  set (m := (valueOf end_ - valueOf start)%Z).
  set (delta0 := inject_Z m / 1000).
  assert (delta0 == inject_Z m / 1000) as H0 by done.
  change 86400 with (inject_Z 86400). change 3600 with (inject_Z 3600).
  change 60 with (inject_Z 60).
  rewrite (floor_delta_over delta0 m 86400 ltac:(done) H0).
  set (days := (m / (86400 * 1000))%Z).
  pose proof (delta_step delta0 m days 86400 H0) as H1.
  set (delta1 := delta0 - inject_Z days * inject_Z 86400) in *.
  set (m1 := (m - days * (86400 * 1000))%Z) in *.
  rewrite (floor_delta_over delta1 m1 3600 ltac:(done) H1).
  assert (0 ≤ m1 < 86400000)%Z as Hm1.
  { subst m1 days. euclid. }
  assert (Z.rem (m1 / (3600 * 1000)) 24 = m1 / (3600 * 1000))%Z as ->.
  { apply Z.rem_small. euclid. }
  set (hours := (m1 / (3600 * 1000))%Z).
  pose proof (delta_step delta1 m1 hours 3600 H1) as H2.
  set (delta2 := delta1 - inject_Z hours * inject_Z 3600) in *.
  set (m2 := (m1 - hours * (3600 * 1000))%Z) in *.
  rewrite (floor_delta_over delta2 m2 60 ltac:(done) H2).
  assert (0 ≤ m2 < 3600000)%Z as Hm2.
  { subst m2 hours. euclid. }
  assert (Z.rem (m2 / (60 * 1000)) 60 = m2 / (60 * 1000))%Z as ->.
  { apply Z.rem_small. euclid. }
  set (minutes := (m2 / (60 * 1000))%Z).
  pose proof (delta_step delta2 m2 minutes 60 H2) as H3.
  set (delta3 := delta2 - inject_Z minutes * inject_Z 60) in *.
  set (m3 := (m2 - minutes * (60 * 1000))%Z) in *.
  assert (0 ≤ m3 < 60000)%Z as Hm3.
  { subst m3 minutes. euclid. }
  assert (Js.Math_floor (Js.rem delta3 (inject_Z 60)) = (m3 / 1000)%Z) as ->.
  { apply floor_of_quotient. unfold Js.rem.
    rewrite (trunc_of_quotient _ m3 60000); [|lia|lia|].
    - rewrite Z.div_small by lia. rewrite H3. change (inject_Z 1000) with 1000.
      ring.
    - rewrite H3. field. }
  cbv zeta. subst m3 minutes m2 hours m1 days.
  change (86400 * 1000)%Z with 86400000%Z.
  change (3600 * 1000)%Z with 3600000%Z.
  change (60 * 1000)%Z with 60000%Z.
  pose proof (minutes_of_seconds m) as Hmin.
  pose proof (seconds_of_seconds m) as Hsec. cbv zeta in Hmin, Hsec.
  by rewrite Hsec, Hmin, (hours_of_seconds m), (days_of_seconds m).
Qed.

End DurationArithmetic.

(** ** Trimming a rendered unit *)

Section Trimming.

Lemma trimStart_black (s : string) : starts_black s → Js.trimStart s = s.
Proof. destruct s as [|a s]; simpl; [done|]. by intros ->. Qed.

Lemma trimEnd_unit (x : string) (a : ascii) :
  Js.is_white_space a = false →
  Js.trimEnd (x +:+ String a " ") = x +:+ String a "".
Proof.
  intros Ha. induction x as [|b x IH]; simpl.
  - by rewrite Ha.
  - simpl in IH. rewrite IH. by destruct x.
Qed.

Lemma trimEnd_black_end (x : string) (a : ascii) :
  Js.is_white_space a = false →
  Js.trimEnd (x +:+ String a "") = x +:+ String a "".
Proof.
  intros Ha. induction x as [|b x IH]; simpl.
  - by rewrite Ha.
  - simpl in IH. rewrite IH. by destruct x.
Qed.

Lemma digit_black (x : N) : Js.is_white_space (pretty_N_char x) = false.
Proof. unfold pretty_N_char. by repeat case_match. Qed.

Lemma pretty_N_go_black (x : N) (s : string) :
  starts_black s → starts_black (pretty_N_go x s).
Proof.
  revert s. induction (N.lt_wf_0 x) as [x _ IH]; intros s Hs.
  destruct (decide (x = 0%N)) as [->|Hx]; [by rewrite pretty_N_go_0|].
  rewrite pretty_N_go_step by lia.
  apply IH; [apply N.div_lt; lia|]. apply digit_black.
Qed.

Lemma number_to_string_black (n : Z) : starts_black (Js.number_to_string n).
Proof.
  assert (∀ p : positive, starts_black (pretty p)) as Hpos.
  { intros p. unfold pretty, pretty_positive, pretty, pretty_N.
    rewrite decide_False by done. rewrite pretty_N_go_step by lia.
    apply pretty_N_go_black, digit_black. }
  destruct n as [|p|p]; [done|apply Hpos|done].
Qed.

Lemma starts_black_app (s t : string) :
  starts_black s → starts_black (s +:+ t).
Proof. by destruct s. Qed.

(** The seconds unit, trimmed: the one trailing space goes. *)
Lemma trim_seconds (value : Z) :
  Js.trim (format_duration value "s" false)
  = Js.number_to_string value +:+ "s".
Proof.
  unfold format_duration, Js.trim. rewrite andb_false_r.
  rewrite trimStart_black by apply starts_black_app, number_to_string_black.
  by apply trimEnd_unit.
Qed.

End Trimming.

Lemma format_duration_hidden (value : Z) (unit : string) :
  format_duration value unit true = shown value unit.
Proof.
  unfold format_duration, shown. rewrite andb_true_r.
  repeat case_bool_decide; done || lia.
Qed.

(** [computeDuration] in terms of the whole seconds elapsed, rounded
    down, whatever the order of the two dates. *)
Lemma computeDuration_closed (start end_ : Date) :
  let total := (valueOf end_ - valueOf start) / 1000 in
  computeDuration start end_ =
    shown (total / 86400) "d" +:+ shown (total / 3600 mod 24) "h" +:+
    shown (total / 60 mod 60) "m" +:+
    Js.number_to_string (total mod 60) +:+ "s".
Proof.
  unfold computeDuration. rewrite duration_parts_closed. cbv beta iota zeta.
  by rewrite !format_duration_hidden, trim_seconds.
Qed.

Lemma append_assoc (s t u : string) : (s +:+ t) +:+ u = s +:+ (t +:+ u).
Proof.
  induction s as [|a s IH]; [done|].
  change (String a ((s +:+ t) +:+ u) = String a (s +:+ t +:+ u)).
  by f_equal.
Qed.

(** The formatted duration never ends in white space. *)
Lemma computeDuration_no_trailing_space (start end_ : Date) :
  Js.trimEnd (computeDuration start end_) = computeDuration start end_.
Proof.
  rewrite computeDuration_closed. cbv zeta.
  rewrite <- !append_assoc. by apply trimEnd_black_end.
Qed.

(** ** Duration formatting *)

(** C3. For a start and an end with the end not before the start, let
    [total] be the elapsed milliseconds over 1000 truncated toward zero.
    The result is the days, hours and minutes of [total], each rendered
    (value, letter, one space) only when positive, followed by the seconds
    of [total] and the letter s, always rendered; it has no trailing white
    space. A total of 0 gives 0s, 65 gives 1m 5s, 59 gives 59s and 90061
    gives 1d 1h 1m 1s. *)
Theorem computeDuration_elapsed (start end_ : Date) :
  valueOf start ≤ valueOf end_ →
  let total := Z.quot (valueOf end_ - valueOf start) 1000 in
  computeDuration start end_ =
    shown (total / 86400) "d" +:+ shown (total / 3600 mod 24) "h" +:+
    shown (total / 60 mod 60) "m" +:+
    Js.number_to_string (total mod 60) +:+ "s"
  ∧ Js.trimEnd (computeDuration start end_) = computeDuration start end_
  ∧ (total = 0 → computeDuration start end_ = "0s")
  ∧ (total = 65 → computeDuration start end_ = "1m 5s")
  ∧ (total = 59 → computeDuration start end_ = "59s")
  ∧ (total = 90061 → computeDuration start end_ = "1d 1h 1m 1s").
Proof.
  intros Hle total.
  assert (computeDuration start end_ =
    shown (total / 86400) "d" +:+ shown (total / 3600 mod 24) "h" +:+
    shown (total / 60 mod 60) "m" +:+
    Js.number_to_string (total mod 60) +:+ "s") as Hclosed.
  { subst total. rewrite Z.quot_div_nonneg by lia.
    apply computeDuration_closed. }
  split; [done|]. split; [apply computeDuration_no_trailing_space|].
  rewrite Hclosed. repeat split; by intros ->.
Qed.

Lemma computeDuration_elapsed_witness :
  valueOf (new_Date 1000) ≤ valueOf (new_Date 66999)
  ∧ computeDuration (new_Date 1000) (new_Date 66999) = "1m 5s".
Proof.
  assert (valueOf (new_Date 1000) ≤ valueOf (new_Date 66999)) as Hle
    by (simpl; lia).
  split; [exact Hle|].
  destruct (computeDuration_elapsed (new_Date 1000) (new_Date 66999) Hle)
    as (_ & _ & _ & H65 & _).
  apply H65. reflexivity.
Defined.

(** C4, as the specification states it, fails: with the end five seconds
    before the start the result is not -5s. *)
Lemma computeDuration_minus_five_seconds :
  computeDuration (new_Date 5000) (new_Date 0) = "23h 59m 55s"
  ∧ computeDuration (new_Date 5000) (new_Date 0) ≠ "-5s".
Proof. by vm_compute. Qed.

(** C4, amended. For a start and an end with the end before the start,
    let [total] be the (negative) elapsed milliseconds over 1000 rounded
    down. The day component is negative and hidden; the hours, minutes and
    seconds are those of [total] taken modulo one day, which is not
    negative, so the seconds rendered are between 0 and 59 and no minus
    sign appears. A duration of minus five seconds gives 23h 59m 55s. *)
Theorem computeDuration_end_before_start (start end_ : Date) :
  valueOf end_ < valueOf start →
  let total := (valueOf end_ - valueOf start) / 1000 in
  let wrapped := total mod 86400 in
  total / 86400 < 0
  ∧ shown (total / 86400) "d" = ""
  ∧ 0 ≤ wrapped < 86400
  ∧ 0 ≤ wrapped mod 60 < 60
  ∧ computeDuration start end_ =
      shown (wrapped / 3600) "h" +:+ shown (wrapped / 60 mod 60) "m" +:+
      Js.number_to_string (wrapped mod 60) +:+ "s"
  ∧ (valueOf end_ - valueOf start = -5000 →
     computeDuration start end_ = "23h 59m 55s").
Proof.
  intros Hlt total wrapped.
  assert (total / 86400 < 0) as Hdays.
  { subst wrapped total. Z.div_mod_to_equations; lia. }
  assert (shown (total / 86400) "d" = "") as Hhidden.
  { unfold shown. by rewrite bool_decide_eq_false_2 by lia. }
  assert (total / 3600 mod 24 = wrapped / 3600) as Hhours.
  { subst wrapped. generalize total. clear. intros t.
    Z.div_mod_to_equations; lia. }
  assert (total / 60 mod 60 = wrapped / 60 mod 60) as Hminutes.
  { subst wrapped. generalize total. clear. intros t.
    Z.div_mod_to_equations; lia. }
  assert (total mod 60 = wrapped mod 60) as Hseconds.
  { subst wrapped. generalize total. clear. intros t.
    Z.div_mod_to_equations; lia. }
  assert (0 ≤ wrapped < 86400) as Hwrapped.
  { subst wrapped. apply Z.mod_pos_bound. lia. }
  assert (computeDuration start end_ =
      shown (wrapped / 3600) "h" +:+ shown (wrapped / 60 mod 60) "m" +:+
      Js.number_to_string (wrapped mod 60) +:+ "s") as Hclosed.
  { rewrite computeDuration_closed. cbv zeta. fold total. rewrite Hhidden.
    by rewrite Hhours, Hminutes, Hseconds. }
  split; [done|]. split; [done|]. split; [done|].
  split; [apply Z.mod_pos_bound; lia|].
  split; [done|].
  intros Hms. rewrite Hclosed. subst wrapped total. by rewrite Hms.
Qed.

Lemma computeDuration_end_before_start_witness :
  valueOf (new_Date 0) < valueOf (new_Date 5000)
  ∧ computeDuration (new_Date 5000) (new_Date 0) = "23h 59m 55s".
Proof.
  assert (valueOf (new_Date 0) < valueOf (new_Date 5000)) as Hlt
    by (simpl; lia).
  split; [exact Hlt|].
  destruct (computeDuration_end_before_start (new_Date 5000) (new_Date 0) Hlt)
    as (_ & _ & _ & _ & _ & Hfive).
  apply Hfive. reflexivity.
Defined.

(** ** Status aggregation and the job-inclusion policy *)

Section Aggregation.

Implicit Types (includeJobs : string) (l : list Job.t) (job : Job.t).

Lemma every_success_or_skipped l :
  forallb (λ job, bool_decide (Job.conclusion job ∈ ["success"; "skipped"])) l
  = bool_decide
      (Forall (λ job, Job.conclusion job = "success"
                      ∨ Job.conclusion job = "skipped") l).
Proof.
  induction l as [|job l IH]; [done|]. simpl. rewrite IH.
  apply eq_true_iff_eq.
  rewrite andb_true_iff, !bool_decide_eq_true, Forall_cons.
  rewrite !elem_of_cons, elem_of_nil. tauto.
Qed.

Lemma some_cancelled l :
  existsb (λ job, bool_decide (Job.conclusion job = "cancelled")) l
  = bool_decide (Exists (λ job, Job.conclusion job = "cancelled") l).
Proof.
  induction l as [|job l IH].
  - symmetry. apply bool_decide_eq_false_2. intros H. by apply Exists_nil in H.
  - simpl. rewrite IH. apply eq_true_iff_eq.
    by rewrite orb_true_iff, !bool_decide_eq_true, Exists_cons.
Qed.

(** The colour, read off the conclusions alone. *)
Lemma resultColor_cases includeJobs l :
  resultColor includeJobs l =
    if decide (Forall (λ job, Job.conclusion job = "success"
                              ∨ Job.conclusion job = "skipped") l)
    then Good
    else if decide (Exists (λ job, Job.conclusion job = "cancelled") l)
    then Warning
    else Danger.
Proof.
  unfold resultColor, styling.
  rewrite every_success_or_skipped, some_cancelled.
  repeat case_bool_decide; repeat case_decide; done.
Qed.

Lemma resultColor_policy_free includeJobs includeJobs' l :
  resultColor includeJobs l = resultColor includeJobs' l.
Proof. by rewrite !resultColor_cases. Qed.

Lemma resultColor_Danger_nonempty includeJobs l :
  resultColor includeJobs l = Danger → l ≠ [].
Proof. by intros Hcolor ->. Qed.

(** [jobFields], read off the policy string and the colour. *)
Lemma jobFields_cases includeJobs l :
  jobFields includeJobs l =
    if decide (includeJobs = "false") then []
    else if decide (includeJobs = "on-failure")
    then (if decide (resultColor includeJobs l = Danger)
          then jobField <$> l else [])
    else jobField <$> l.
Proof.
  unfold jobFields, resultColor, styling.
  destruct (forallb _ l); [|destruct (existsb _ l)]; simpl;
    repeat case_decide; done.
Qed.

End Aggregation.

(** C1. For every job list, with [filtered] its jobs that are completed
    and not skipped: the colour is Good when every filtered job concluded
    success or skipped, otherwise Warning when some filtered job was
    cancelled, otherwise Danger. The empty list gives Good. The function is
    total and returns one of the three colours for any conclusion
    strings. *)
Theorem resultColor_aggregation (includeJobs : string) (jobs : list Job.t) :
  let filtered := completedJobs jobs in
  resultColor includeJobs filtered =
    (if decide (Forall (λ job, Job.conclusion job = "success"
                               ∨ Job.conclusion job = "skipped") filtered)
     then Good
     else if decide (Exists (λ job, Job.conclusion job = "cancelled") filtered)
     then Warning
     else Danger)
  ∧ resultColor includeJobs [] = Good
  ∧ Forall (λ job, Job.status job = "completed"
                   ∧ Job.conclusion job ≠ "skipped") filtered
  ∧ resultColor includeJobs filtered ∈ [Good; Warning; Danger].
Proof.
  intros filtered. split; [apply resultColor_cases|]. split; [done|].
  split.
  - apply Forall_forall. intros job Hjob.
    by apply list_elem_of_filter in Hjob as [? _].
  - destruct (resultColor includeJobs filtered); set_solver.
Qed.

Example resultColor_success_skipped :
  resultColor "true"
    (completedJobs [Sample.concluded "success"; Sample.concluded "skipped"])
  = Good.
Proof. reflexivity. Qed.

Example resultColor_success_cancelled :
  resultColor "true"
    (completedJobs [Sample.concluded "success"; Sample.concluded "cancelled"])
  = Warning.
Proof. reflexivity. Qed.

Example resultColor_success_failure :
  resultColor "true"
    (completedJobs [Sample.concluded "success"; Sample.concluded "failure"])
  = Danger.
Proof. reflexivity. Qed.

(** A cancelled job decides before a failed one is looked at. *)
Example resultColor_cancelled_failure :
  resultColor "true"
    (completedJobs [Sample.concluded "cancelled"; Sample.concluded "failure"])
  = Warning.
Proof. reflexivity. Qed.

Example resultColor_unrecognized :
  resultColor "true" (completedJobs [Sample.concluded "timed_out"]) = Danger.
Proof. reflexivity. Qed.

(** Any policy string other than false and on-failure behaves as true
    does: the source compares against these two strings only. *)
Lemma jobFields_other_policy (includeJobs : string) (l : list Job.t) :
  includeJobs ≠ "false" → includeJobs ≠ "on-failure" →
  jobFields includeJobs l = jobField <$> l.
Proof. intros ? ?. rewrite jobFields_cases. by repeat case_decide. Qed.

(** C2. The policy is the input [include_jobs]; the source spells never
    as the string false and always as the string true. With false the
    fields are empty. With on-failure they are one entry per filtered job
    when the colour is Danger, and empty for Good and Warning; they are
    non-empty exactly when the colour is Danger. With true they are one
    entry per filtered job, so non-empty whenever a filtered job exists. *)
Theorem jobFields_policy (jobs : list Job.t) :
  let filtered := completedJobs jobs in
  jobFields "false" filtered = []
  ∧ jobFields "on-failure" filtered =
      (match resultColor "on-failure" filtered with
       | Danger => jobField <$> filtered
       | Good | Warning => []
       end)
  ∧ (jobFields "on-failure" filtered ≠ []
     ↔ resultColor "on-failure" filtered = Danger)
  ∧ jobFields "true" filtered = jobField <$> filtered
  ∧ length (jobFields "true" filtered) = length filtered
  ∧ (jobFields "true" filtered = [] ↔ filtered = []).
Proof.
  intros filtered. rewrite !jobFields_cases. simpl.
  split; [done|]. split; [by destruct (resultColor _ _)|].
  split; [|split; [done|split]].
  - case_decide as Hcolor.
    + split; [done|]. intros _.
      apply resultColor_Danger_nonempty in Hcolor. by destruct filtered.
    + split; [done|]. by intros ?.
  - by rewrite length_fmap.
  - by destruct filtered.
Qed.

(** C8. The fields the attachment carries are empty when the inclusion
    policy suppresses them, that is when [include_jobs] is false, or is
    on-failure with a colour other than Danger; otherwise they are, entry
    by entry and in order, the images of the jobs that are completed and
    not skipped. In both cases they are a sub-list of the entries of all
    the fetched jobs, so they keep the order of the fetch. *)
Theorem jobFields_invariant (inputs : Inputs.t) (context : Context.t)
    (workflowRun : WorkflowRun.t) (commit : Commit.t) (jobs : list Job.t) :
  let attachment := slackAttachment inputs context workflowRun commit jobs in
  let fields := Attachment.fields attachment in
  let filtered :=
    filter (λ job, Job.status job = "completed"
                   ∧ Job.conclusion job ≠ "skipped") jobs in
  fields =
    (if decide (Inputs.include_jobs inputs = "false"
                ∨ (Inputs.include_jobs inputs = "on-failure"
                   ∧ Attachment.color attachment ≠ Danger))
     then []
     else jobField <$> filtered)
  ∧ (fields = []
     ∨ (length fields = length filtered
        ∧ ∀ (i : nat), fields !! i = jobField <$> filtered !! i))
  ∧ fields `sublist_of` (jobField <$> jobs).
Proof.
  intros attachment fields filtered.
  assert (fields =
    (if decide (Inputs.include_jobs inputs = "false"
                ∨ (Inputs.include_jobs inputs = "on-failure"
                   ∧ Attachment.color attachment ≠ Danger))
     then []
     else jobField <$> filtered)) as Hfields.
  { subst fields attachment. simpl. unfold completedJobs. fold filtered.
    rewrite jobFields_cases. repeat case_decide; done || tauto. }
  split; [exact Hfields|]. rewrite Hfields. case_decide; split.
  - by left.
  - apply sublist_nil_l.
  - right. split; [by rewrite length_fmap|].
    intros i. by rewrite list_lookup_fmap.
  - apply fmap_sublist, sublist_filter.
Qed.

(** ** Title *)

(** The title of the line built for a pull request with number [n]. *)
Lemma pullRequests_titles (context : Context.t) (workflowRun : WorkflowRun.t) :
  PullRequestLine.title <$> pullRequests context workflowRun
  = (λ pr, pull_request_link context workflowRun (PullRequest.number pr))
    <$> WorkflowRun.pull_requests workflowRun.
Proof.
  unfold pullRequests. rewrite <- list_fmap_compose.
  by apply list_fmap_ext.
Qed.

Lemma title_cases (context : Context.t) (workflowRun : WorkflowRun.t)
    (commit : Commit.t) :
  title context workflowRun commit =
    match WorkflowRun.pull_requests workflowRun with
    | [] =>
        Context.eventName context +:+ " on " +:+ branchUrl workflowRun +:+
        " " +:+ commitUrl commit +:+ Js.LF
    | pr :: _ =>
        pull_request_link context workflowRun (PullRequest.number pr)
    end.
Proof.
  unfold title. pose proof (pullRequests_titles context workflowRun) as Hlines.
  destruct (WorkflowRun.pull_requests workflowRun) as [|pr rest];
    destruct (pullRequests context workflowRun) as [|line lines];
    simplify_eq/=; done.
Qed.

(** C5, as the specification states it, fails: with no associated pull
    request the title is the default format followed by a line feed, not
    the default format alone. *)
Lemma title_default_ends_with_line_feed :
  title Sample.push (Sample.run []) Sample.commit
  ≠ spec_default_title (Context.eventName Sample.push)
      (branchUrl (Sample.run [])) (commitUrl Sample.commit).
Proof. by vm_compute. Qed.

(** C5, amended. With no associated pull request the title is the event
    name, the word on, the branch link, the commit link and a final line
    feed. With at least one, the title is the link of the first pull
    request, whatever the rest of the list is. *)
Theorem title_substitution (context : Context.t) (workflowRun : WorkflowRun.t)
    (commit : Commit.t) :
  title context workflowRun commit =
    match WorkflowRun.pull_requests workflowRun with
    | [] =>
        Context.eventName context +:+ " on " +:+ branchUrl workflowRun +:+
        " " +:+ commitUrl commit +:+ Js.LF
    | pr :: _ =>
        "<" +:+ Repository.html_url (WorkflowRun.repository workflowRun) +:+
        "/pull/" +:+ Js.number_to_string (PullRequest.number pr) +:+ "|" +:+
        match Context.payload_pull_request context with
        | Some {| Context.title := Some event_title |} => event_title
        | _ => ""
        end +:+ " #" +:+ Js.number_to_string (PullRequest.number pr) +:+ ">"
    end.
Proof.
  rewrite title_cases.
  destruct (WorkflowRun.pull_requests workflowRun) as [|pr rest]; [done|].
  unfold pull_request_link.
  by destruct (Context.payload_pull_request context) as [[[?|]]|].
Qed.

(** C10. Every element of [pullRequests] has a title built from the
    repository link, the pull request's number and the title of the event
    payload's pull request (the empty string without one); the pull
    request's own title is not read. For an event without a pull request
    and a run with associated pull requests, the composed title has
    nothing between the bar and the number sign but one space. *)
Theorem pull_request_title_from_event (context : Context.t)
    (workflowRun : WorkflowRun.t) (commit : Commit.t) :
  let event_title :=
    match Context.payload_pull_request context with
    | Some {| Context.title := Some event_title |} => event_title
    | _ => ""
    end in
  let link (n : Z) :=
    "<" +:+ Repository.html_url (WorkflowRun.repository workflowRun) +:+
    "/pull/" +:+ Js.number_to_string n +:+ "|" +:+ event_title +:+ " #" +:+
    Js.number_to_string n +:+ ">" in
  PullRequestLine.title <$> pullRequests context workflowRun
  = (λ pr, link (PullRequest.number pr)) <$> WorkflowRun.pull_requests workflowRun
  ∧ match Context.payload_pull_request context,
          WorkflowRun.pull_requests workflowRun with
    | None, pr :: _ =>
        title context workflowRun commit =
          "<" +:+ Repository.html_url (WorkflowRun.repository workflowRun) +:+
          "/pull/" +:+ Js.number_to_string (PullRequest.number pr) +:+
          "| #" +:+ Js.number_to_string (PullRequest.number pr) +:+ ">"
    | _, _ => True
    end.
Proof.
  intros event_title link. split.
  - rewrite pullRequests_titles. apply list_fmap_ext. intros _ pr _.
    subst link event_title. unfold pull_request_link. simpl.
    by destruct (Context.payload_pull_request context) as [[[?|]]|].
  - rewrite title_cases. unfold pull_request_link.
    destruct (Context.payload_pull_request context) as [?|]; [done|].
    by destruct (WorkflowRun.pull_requests workflowRun).
Qed.

Example title_of_push_with_pull_request :
  title Sample.push (Sample.run [Sample.pull_request]) Sample.commit
  = "<https://github.com/o/r/pull/12| #12>".
Proof. reflexivity. Qed.

(** ** Job field entries *)

Section Icons.

Lemma jobIcon_success : jobIcon "success" = Js.VString "✓".
Proof. reflexivity. Qed.

Lemma jobIcon_cancelled : jobIcon "cancelled" = Js.VString "⃠".
Proof. reflexivity. Qed.

Lemma jobIcon_skipped : jobIcon "skipped" = Js.VString "✗".
Proof. reflexivity. Qed.

(** A conclusion the table does not map, and that names no inherited
    member, reads [undefined]; the default applies. *)
Lemma jobIcon_unmapped (conclusion : string) :
  conclusion ≠ "success" → conclusion ≠ "cancelled" →
  conclusion ≠ "skipped" →
  Js.Object_prototype !! conclusion = None →
  jobIcon conclusion = Js.VString "✗".
Proof.
  intros H1 H2 H3 Hproto. unfold jobIcon, Js.get, statusIcons.
  rewrite !lookup_insert_ne by done.
  by rewrite lookup_singleton_ne, Hproto by done.
Qed.

(** A conclusion that names an inherited member reads that member. *)
Lemma jobIcon_inherited (conclusion text : string) :
  Js.Object_prototype !! conclusion = Some text →
  jobIcon conclusion = Js.VObject text.
Proof.
  intros Hproto. unfold jobIcon, Js.get.
  destruct (statusIcons !! conclusion) as [icon|] eqn:Hown.
  - exfalso. unfold statusIcons in Hown.
    apply lookup_insert_Some in Hown as [[<- _]|[_ Hown]]; [done|].
    apply lookup_insert_Some in Hown as [[<- _]|[_ Hown]]; [done|].
    by apply lookup_singleton_Some in Hown as [<- _].
  - by rewrite Hproto.
Qed.

End Icons.

(** C6, as the specification states it, fails: the source puts a space
    between the job link and the parenthesis. *)
Lemma jobField_value_has_space :
  Field.value (jobField Sample.job)
  ≠ spec_entry_text "✓" (jobLink Sample.job)
      (computeDuration (Job.started_at Sample.job)
                       (Job.completed_at Sample.job)).
Proof. by vm_compute. Qed.

(** C6, amended. For a job whose conclusion does not name a member
    inherited from [Object.prototype], the icon is the check mark for
    success, the enclosing circle backslash for cancelled and the ballot x
    for skipped and for every other conclusion; the entry has an empty
    title, is short, and its value is the icon, a space, the job link, a
    space, and the job's own duration in parentheses. *)
Theorem jobField_entry (job : Job.t) :
  Js.Object_prototype !! Job.conclusion job = None →
  let icon :=
    if decide (Job.conclusion job = "success") then "✓"
    else if decide (Job.conclusion job = "cancelled") then "⃠"
    else "✗" in
  jobField job =
    {| Field.title := "";
       Field.short := true;
       Field.value :=
         icon +:+ " " +:+ jobLink job +:+ " (" +:+
         computeDuration (Job.started_at job) (Job.completed_at job) +:+ ")" |}.
Proof.
  intros Hproto icon. unfold jobField, jobLink.
  assert (Js.to_string (jobIcon (Job.conclusion job)) = icon) as ->.
  { subst icon. repeat case_decide.
    - replace (Job.conclusion job) with "success". by rewrite jobIcon_success.
    - replace (Job.conclusion job) with "cancelled".
      by rewrite jobIcon_cancelled.
    - destruct (decide (Job.conclusion job = "skipped")) as [->|?].
      + by rewrite jobIcon_skipped.
      + by rewrite jobIcon_unmapped. }
  f_equal. by rewrite !append_assoc.
Qed.

Lemma jobField_entry_witness :
  Js.Object_prototype !! Job.conclusion Sample.job = None
  ∧ Field.value (jobField Sample.job)
    = "✓ <https://github.com/o/r/runs/7|build> (1m 5s)".
Proof.
  assert (Js.Object_prototype !! Job.conclusion Sample.job = None) as Hproto
    by reflexivity.
  split; [exact Hproto|].
  rewrite (jobField_entry Sample.job Hproto). reflexivity.
Defined.

(** What the source does for a conclusion such as constructor: the
    inherited member is truthy, so the default icon is not used. *)
Example jobIcon_constructor :
  Js.to_string (jobIcon "constructor") = "function Object() { [native code] }".
Proof. reflexivity. Qed.

(** ** Payload overrides *)

Section Overrides.

Lemma or_null_not_null (input : string) :
  not_null (or_null input) = bool_decide (input ≠ "").
Proof. unfold or_null. by repeat (case_decide || case_bool_decide). Qed.

Lemma slack_values (inputs : Inputs.t) (k : string) (v : PayloadValue) :
  (k, v) ∈ slack inputs → ∃ input, v = or_null input.
Proof.
  unfold slack. rewrite !elem_of_cons, elem_of_nil.
  intros [?|[?|[?|[?|[]]]]]; simplify_eq; eauto.
Qed.

Lemma or_null_sent (input : string) (v : PayloadValue) :
  v = or_null input → not_null v → v ≠ Null ∧ v ≠ Str "".
Proof. intros ->. unfold or_null. case_decide; naive_solver. Qed.

End Overrides.

(** C7. The payload has the key channel, username, icon_url or icon_emoji
    exactly when the corresponding input is not the empty string (the
    value [core.getInput] gives for an input that is not configured), and
    then the value is that input. No key of the payload holds null or the
    empty string. The attachment list is always present. *)
Theorem slack_payload_body_overrides (inputs : Inputs.t) (context : Context.t)
    (workflowRun : WorkflowRun.t) (commit : Commit.t) (jobs : list Job.t) :
  let body := slack_payload_body inputs context workflowRun commit jobs in
  body !! "channel" = override (Inputs.channel inputs)
  ∧ body !! "username" = override (Inputs.name inputs)
  ∧ body !! "icon_url" = override (Inputs.icon_url inputs)
  ∧ body !! "icon_emoji" = override (Inputs.icon_emoji inputs)
  ∧ body !! "attachments"
    = Some (Attachments
              [slackAttachment inputs context workflowRun commit jobs])
  ∧ (∀ k, body !! k ≠ Some Null ∧ body !! k ≠ Some (Str "")).
Proof.
  intros body.
  assert (∀ k, body !! k ≠ Some Null ∧ body !! k ≠ Some (Str "")) as Hsent.
  { intros k. subst body. unfold slack_payload_body.
    cut (∀ v, (list_to_map (filter (λ kv, not_null kv.2) (slack inputs))
                 ∪ {[ "attachments" := Attachments
                        [slackAttachment inputs context workflowRun commit jobs] ]}
               : gmap string PayloadValue) !! k = Some v →
              v ≠ Null ∧ v ≠ Str "").
    { intros Hcut. split; intros Hk; by destruct (Hcut _ Hk). }
    intros v [Hv|[_ Hv]]%lookup_union_Some_raw.
    - apply elem_of_list_to_map_2, list_elem_of_filter in Hv as [Hnn Hin].
      apply slack_values in Hin as [input ->]. by eapply or_null_sent.
    - by apply lookup_singleton_Some in Hv as [_ <-]. }
  repeat split; try apply Hsent.
  all: subst body; unfold slack_payload_body, slack, override, or_null;
    destruct inputs as [? ? ? channel name icon_url icon_emoji]; simpl;
    destruct (decide (channel = "")), (decide (name = "")),
      (decide (icon_url = "")), (decide (icon_emoji = "")); reflexivity.
Qed.

(** ** The top-level handler *)

(** C9. For every value that reaches the handler, the handler logs it
    and reports exactly one failure. The failure message is the value's own
    message when it is an error object with a non-empty message, and the
    text Unhandled Error followed by the value's string form otherwise.
    The rejection of [main ()] goes through the handler, and so does every
    unhandled rejection, each in turn. *)
Theorem handleError_reports (err : Thrown) :
  let own_message :=
    match err with
    | ErrorObject _ message => message
    | _ => ""
    end in
  handleError err =
    [ core_error err;
      core_setFailed
        (if decide (own_message = "")
         then "Unhandled Error: " +:+ Thrown_to_string err
         else own_message) ]
  ∧ main_catch (Rejected err) = handleError err
  ∧ (∀ before after,
       unhandledRejection (before ++ err :: after)%list
       = (unhandledRejection before ++ handleError err ++
          unhandledRejection after)%list).
Proof.
  intros own_message. split; [|split; [done|]].
  - unfold handleError, has_message. subst own_message.
    destruct err as [| |s|name message]; simpl;
      repeat (case_decide || case_bool_decide); done.
  - intros before after. unfold unhandledRejection.
    by rewrite bind_app, bind_cons.
Qed.

Example handleError_of_error :
  handleError (ErrorObject "Error" "Not Found")
  = [core_error (ErrorObject "Error" "Not Found"); core_setFailed "Not Found"].
Proof. reflexivity. Qed.

Example handleError_of_undefined :
  handleError Undefined
  = [core_error Undefined; core_setFailed "Unhandled Error: undefined"].
Proof. reflexivity. Qed.

Example handleError_of_empty_message :
  handleError (ErrorObject "TypeError" "")
  = [core_error (ErrorObject "TypeError" "");
     core_setFailed "Unhandled Error: TypeError"].
Proof. reflexivity. Qed.

(** * Further properties of the source *)

(** ** [main] and its collaborators *)

Section Main.

Implicit Types (w : World.t).

(** Case analysis on what the collaborators of [w] do, in call order. *)
Local Ltac run_main w :=
  unfold script, main, try_send, read_context_repo, perform;
  destruct (World.getInput_required w "slack_webhook_url")
    as [webhookUrl|?] eqn:Hurl;
  [destruct (World.getInput_required w "repo_token") as [token|?] eqn:Htoken;
   [destruct (World.getInput_required w "include_jobs")
      as [includeJobs|?] eqn:Hinclude;
    [destruct (World.getOctokit w token) as [[]|?] eqn:Hoctokit;
     [destruct (World.context_repo w) as [[]|?] eqn:Hrepo;
      [destruct (World.getWorkflowRun w) as [workflowRun|?] eqn:Hrun;
       [destruct (World.getCommit w) as [commit|?] eqn:Hcommit;
        [destruct (World.listJobsForWorkflowRun w) as [jobs|?] eqn:Hjobs;
         [destruct (World.send w webhookUrl
                      (slack_payload_body
                         (inputs_read w webhookUrl token includeJobs)
                         (World.context w) workflowRun commit jobs))
            as [?|] eqn:Hsend
         |]|]|]|]|]|]|]|];
  unfold inputs_read in *; simpl;
  try match goal with H : World.getOctokit _ _ = _ |- _ => rewrite H; simpl end;
  try match goal with H : World.send _ _ _ = _ |- _ => rewrite H; simpl end.

Local Ltac split_elem H :=
  repeat (apply elem_of_cons in H as [H|H]; [try discriminate H|]);
  try (by apply elem_of_nil in H).

(** X1. [main] sends only after the three required inputs and the three
    fetches have returned; what it sends, to the URL it read, is the
    payload composed from exactly these results, and it sends it once. *)
Theorem main_sends_composed_payload w (url : string)
    (body : gmap string PayloadValue) :
  call_send url body ∈ (main w).1 →
  length (filter is_send (main w).1) = 1%nat
  ∧ ∃ token includeJobs workflowRun commit jobs,
      World.getInput_required w "slack_webhook_url" = Returns url
      ∧ World.getInput_required w "repo_token" = Returns token
      ∧ World.getInput_required w "include_jobs" = Returns includeJobs
      ∧ World.getWorkflowRun w = Returns workflowRun
      ∧ World.getCommit w = Returns commit
      ∧ World.listJobsForWorkflowRun w = Returns jobs
      ∧ body = slack_payload_body
                 (inputs_read w url token includeJobs)
                 (World.context w) workflowRun commit jobs.
Proof.
  run_main w; intros Hin; split_elem Hin.
  all: injection Hin as -> ->; split; [done|].
  all: by eexists _, _, _, _, _.
Qed.

Lemma main_sends_composed_payload_witness :
  call_send Sample_url Sample_body ∈ (main (Sample_world None)).1
  ∧ length (filter is_send (main (Sample_world None)).1) = 1%nat.
Proof.
  assert (call_send Sample_url Sample_body ∈ (main (Sample_world None)).1)
    as Hin.
  { apply list_elem_of_lookup. by exists 13%nat. }
  split; [exact Hin|].
  exact (proj1 (main_sends_composed_payload _ _ _ Hin)).
Defined.

(** X2. When [main] rejects, whatever threw, nothing was sent and [main]
    reported no failure itself; the handler then reports the error [main]
    rejected with, and this is the one failure report of the run. *)
Theorem main_rejection_sends_nothing w (err : Thrown) :
  (main w).2 = Throws err →
  Forall (λ c, is_send c = false ∧ is_report c = false) (main w).1
  ∧ (script w).2 = handleError err
  ∧ reports (script w) = 1%nat.
Proof.
  unfold reports, script. destruct (main w) as [calls outcome] eqn:Hmain.
  revert Hmain. run_main w; intros [= <- <-] Hout; simplify_eq/=.
  all: split; [by repeat constructor|]. all: split; [done|].
  all: unfold handleError; by destruct (has_message _).
Qed.

Lemma main_rejection_sends_nothing_witness :
  (main Sample_world_no_commit).2 = Throws (ErrorObject "HttpError" "Not Found")
  ∧ (script Sample_world_no_commit).2
    = [core_error (ErrorObject "HttpError" "Not Found");
       core_setFailed "Not Found"].
Proof.
  assert ((main Sample_world_no_commit).2
          = Throws (ErrorObject "HttpError" "Not Found")) as Hout
    by reflexivity.
  split; [exact Hout|].
  destruct (main_rejection_sends_nothing _ _ Hout) as (_ & -> & _).
  reflexivity.
Defined.

(** X3. When the send rejects, [main] reports the error itself with
    [core.setFailed] as its last call and still fulfils, so the handler is
    not run and the error is not logged by [core.error]. *)
Theorem main_send_failure w (url : string)
    (body : gmap string PayloadValue) (err : Thrown) :
  call_send url body ∈ (main w).1 →
  World.send w url body = Some err →
  (main w).2 = Returns ()
  ∧ last (main w).1 = Some (call_setFailed err)
  ∧ (script w).2 = []%list.
Proof.
  unfold script. destruct (main w) as [calls outcome] eqn:Hmain.
  revert Hmain. run_main w; intros [= <- <-] Hin Hfail; simpl in *;
    split_elem Hin.
  all: injection Hin as -> ->; unfold inputs_read in *; by simplify_eq.
Qed.

Lemma main_send_failure_witness :
  call_send Sample_url Sample_body
    ∈ (main (Sample_world (Some (ThrownString "timeout")))).1
  ∧ last (main (Sample_world (Some (ThrownString "timeout")))).1
    = Some (call_setFailed (ThrownString "timeout")).
Proof.
  assert (call_send Sample_url Sample_body
            ∈ (main (Sample_world (Some (ThrownString "timeout")))).1) as Hin.
  { apply list_elem_of_lookup. by exists 13%nat. }
  split; [exact Hin|].
  exact (proj1 (proj2 (main_send_failure _ _ _ _ Hin eq_refl))).
Defined.

(** X4. A run reports failure at most once, in [main] or in the handler;
    it reports none exactly when the payload was sent and the send
    resolved. *)
Theorem script_reports_once w :
  (reports (script w) ≤ 1)%nat
  ∧ (reports (script w) = 0%nat
     ↔ ∃ webhookUrl body,
         call_send webhookUrl body ∈ (main w).1
         ∧ World.send w webhookUrl body = None).
Proof.
  unfold reports, script. destruct (main w) as [calls outcome] eqn:Hmain.
  revert Hmain. run_main w; intros [= <- <-]; simpl.
  all: unfold handleError; try destruct (has_message _); simpl.
  all: split; [lia|split].
  all: try (intros ?; lia).
  all: try (intros _; eexists _, _;
            split; [apply list_elem_of_lookup; by exists 13%nat|eassumption]).
  all: intros (url & body & Hin & Hsent); split_elem Hin.
  all: injection Hin as -> ->; unfold inputs_read in *; by simplify_eq.
Qed.

(** X5. Every call that goes over the network comes after both
    [core.setSecret] calls, which register the token and the webhook URL
    that were read. *)
Theorem secrets_before_network w (i : nat) (c : Call) :
  (main w).1 !! i = Some c → is_network c = true →
  (8 < i)%nat
  ∧ ∃ token webhookUrl,
      World.getInput_required w "repo_token" = Returns token
      ∧ World.getInput_required w "slack_webhook_url" = Returns webhookUrl
      ∧ (main w).1 !! 7%nat = Some (call_setSecret token)
      ∧ (main w).1 !! 8%nat = Some (call_setSecret webhookUrl).
Proof.
  run_main w; intros Hi Hnet.
  all: do 15 (destruct i as [|i];
              [solve [simplify_eq/=; try done;
                      try (split; [lia|by eexists _, _])]|]).
  all: done.
Qed.

Lemma secrets_before_network_witness :
  (main (Sample_world None)).1 !! 13%nat = Some (call_send Sample_url Sample_body)
  ∧ (main (Sample_world None)).1 !! 7%nat = Some (call_setSecret "<repo_token>")
  ∧ (main (Sample_world None)).1 !! 8%nat = Some (call_setSecret Sample_url).
Proof.
  assert ((main (Sample_world None)).1 !! 13%nat
          = Some (call_send Sample_url Sample_body)) as Hi by reflexivity.
  split; [exact Hi|].
  destruct (secrets_before_network _ _ _ Hi eq_refl)
    as (_ & token & url & Htoken & Hurl & H7 & H8).
  injection Htoken as <-. injection Hurl as <-. by split.
Defined.

End Main.

(** ** More on [computeDuration] *)

Section Reading.

Lemma pretty_N_go_app (x : N) (s t : string) :
  pretty_N_go x s +:+ t = pretty_N_go x (s +:+ t).
Proof.
  revert s. induction (N.lt_wf_0 x) as [x _ IH]; intros s.
  destruct (decide (x = 0%N)) as [->|Hx]; [by rewrite !pretty_N_go_0|].
  rewrite (pretty_N_go_step x s), (pretty_N_go_step x (s +:+ t)) by lia.
  rewrite IH by (apply N.div_lt; lia). reflexivity.
Qed.

Lemma read_units_digit (total acc : Z) (d : N) (s : string) :
  (d < 10)%N →
  read_units total acc (String (pretty_N_char d) s)
  = read_units total (acc * 10 + Z.of_N d) s.
Proof.
  intros Hd.
  assert (d = 0 ∨ d = 1 ∨ d = 2 ∨ d = 3 ∨ d = 4 ∨ d = 5 ∨ d = 6 ∨ d = 7
          ∨ d = 8 ∨ d = 9)%N as Hcases by lia.
  by repeat (destruct Hcases as [->|Hcases]; [done|]); subst.
Qed.

Lemma read_units_pretty_N_go (total : Z) (x : N) (s : string) :
  read_units total 0 (pretty_N_go x s) = read_units total (Z.of_N x) s.
Proof.
  revert s. induction (N.lt_wf_0 x) as [x _ IH]; intros s.
  destruct (decide (x = 0%N)) as [->|Hx]; [by rewrite pretty_N_go_0|].
  rewrite pretty_N_go_step by lia. rewrite IH by (apply N.div_lt; lia).
  rewrite read_units_digit by (apply N.mod_lt; lia). f_equal.
  pose proof (N.div_mod x 10 ltac:(done)). lia.
Qed.

Lemma read_units_number (total n : Z) (rest : string) :
  0 ≤ n →
  read_units total 0 (Js.number_to_string n +:+ rest)
  = read_units total n rest.
Proof.
  intros Hn. destruct n as [|p|p]; [done| |lia].
  unfold Js.number_to_string, pretty, pretty_Z, pretty, pretty_positive,
    pretty, pretty_N.
  rewrite decide_False by done.
  by rewrite pretty_N_go_app, read_units_pretty_N_go.
Qed.

Lemma read_units_shown (total v k : Z) (u : ascii) (rest : string) :
  0 ≤ v →
  (u, k) ∈ [("d"%char, 86400); ("h"%char, 3600); ("m"%char, 60)] →
  read_units total 0 (shown v (String u "") +:+ rest)
  = read_units (total + v * k) 0 rest.
Proof.
  intros Hv Hu. unfold shown. case_bool_decide as Hpos.
  - rewrite !append_assoc, read_units_number by done.
    change (String u "" +:+ " " +:+ rest) with (String u (String " " rest)).
    rewrite !elem_of_cons, elem_of_nil in Hu.
    by destruct Hu as [?|[?|[?|[]]]]; simplify_eq.
  - replace v with 0 by lia. rewrite Z.mul_0_l, Z.add_0_r. reflexivity.
Qed.

(** Reading the output back gives the whole seconds it was made from. *)
Lemma read_units_computeDuration (start end_ : Date) :
  valueOf start ≤ valueOf end_ →
  read_units 0 0 (computeDuration start end_)
  = (valueOf end_ - valueOf start) / 1000.
Proof.
  intros Hle. rewrite computeDuration_closed. cbv zeta.
  set (total := (valueOf end_ - valueOf start) / 1000).
  assert (0 ≤ total) as Htotal by (subst total; Z.div_mod_to_equations; lia).
  clearbody total.
  rewrite (read_units_shown _ _ 86400) by (set_solver || (clear -Htotal; Z.div_mod_to_equations; lia)).
  rewrite (read_units_shown _ _ 3600) by (set_solver || (clear -Htotal; Z.div_mod_to_equations; lia)).
  rewrite (read_units_shown _ _ 60) by (set_solver || (clear -Htotal; Z.div_mod_to_equations; lia)).
  rewrite read_units_number by (clear -Htotal; Z.div_mod_to_equations; lia).
  simpl. clear -Htotal. Z.div_mod_to_equations; lia.
Qed.

End Reading.

(** X6. The four components always recombine to the elapsed milliseconds
    over 1000 rounded down, with hours below 24 and minutes and seconds
    below 60, none of the three negative, whatever the order of the two
    dates; only the day count can be negative. *)
Theorem duration_parts_recombine (start end_ : Date) (days hours minutes
    seconds : Z) :
  duration_parts start end_ = (days, hours, minutes, seconds) →
  0 ≤ hours < 24 ∧ 0 ≤ minutes < 60 ∧ 0 ≤ seconds < 60
  ∧ days * 86400 + hours * 3600 + minutes * 60 + seconds
    = (valueOf end_ - valueOf start) / 1000.
Proof.
  rewrite duration_parts_closed. cbv zeta.
  generalize ((valueOf end_ - valueOf start) / 1000). intros total [= <- <- <- <-].
  repeat split; Z.div_mod_to_equations; lia.
Qed.

Lemma duration_parts_recombine_witness :
  duration_parts (new_Date 5500) (new_Date 0) = (-1, 23, 59, 54)
  ∧ -1 * 86400 + 23 * 3600 + 59 * 60 + 54 = (0 - 5500) / 1000.
Proof.
  assert (duration_parts (new_Date 5500) (new_Date 0) = (-1, 23, 59, 54))
    as Hparts by reflexivity.
  split; [exact Hparts|].
  exact (proj2 (proj2 (proj2 (duration_parts_recombine _ _ _ _ _ _ Hparts)))).
Defined.

(** X7. The output depends on the two dates only through the elapsed
    milliseconds over 1000 rounded down: shifting both dates, or changing
    the duration within the same second, changes nothing. *)
Theorem computeDuration_whole_seconds (start end_ start' end_' : Date) :
  (valueOf end_ - valueOf start) / 1000
  = (valueOf end_' - valueOf start') / 1000 →
  computeDuration start end_ = computeDuration start' end_'.
Proof. intros Heq. rewrite !computeDuration_closed. cbv zeta. by rewrite Heq. Qed.

Lemma computeDuration_whole_seconds_witness :
  computeDuration (new_Date 0) (new_Date 65000)
  = computeDuration (new_Date 1700000000123) (new_Date 1700000065999).
Proof.
  apply computeDuration_whole_seconds. reflexivity.
Defined.

(** X8. For two durations that are not negative the converse holds: equal
    outputs come from equal whole seconds, so the output loses nothing but
    the fraction of a second. *)
Theorem computeDuration_injective (start end_ start' end_' : Date) :
  valueOf start ≤ valueOf end_ → valueOf start' ≤ valueOf end_' →
  computeDuration start end_ = computeDuration start' end_' →
  (valueOf end_ - valueOf start) / 1000
  = (valueOf end_' - valueOf start') / 1000.
Proof.
  intros Hle Hle' Heq.
  rewrite <- (read_units_computeDuration start end_ Hle).
  rewrite <- (read_units_computeDuration start' end_' Hle').
  by rewrite Heq.
Qed.

Lemma computeDuration_injective_witness :
  (valueOf (new_Date 65000) - valueOf (new_Date 0)) / 1000
  = (valueOf (new_Date 66999) - valueOf (new_Date 1000)) / 1000.
Proof.
  apply computeDuration_injective; [simpl; lia|simpl; lia|reflexivity].
Defined.

(** X9. A negative duration is formatted as the duration it becomes when
    whole days are added until it is not negative: the two cannot be told
    apart in the output. *)
Theorem computeDuration_wraps (start end_ : Date) :
  valueOf end_ < valueOf start →
  computeDuration start end_
  = computeDuration (new_Date 0)
      (new_Date ((valueOf end_ - valueOf start) mod 86400000)).
Proof.
  intros Hlt. rewrite !computeDuration_closed. cbv zeta. simpl valueOf.
  rewrite Z.sub_0_r.
  set (ms := valueOf end_ - valueOf start).
  assert (ms < 0) as Hms by (subst ms; lia). clearbody ms.
  assert (shown (ms / 1000 / 86400) "d" = "") as ->.
  { unfold shown. rewrite bool_decide_eq_false_2; [done|].
    Z.div_mod_to_equations; lia. }
  assert (shown (ms mod 86400000 / 1000 / 86400) "d" = "") as ->.
  { unfold shown. rewrite bool_decide_eq_false_2; [done|].
    Z.div_mod_to_equations; lia. }
  assert (ms mod 86400000 / 1000 / 3600 mod 24 = ms / 1000 / 3600 mod 24)
    as -> by (Z.div_mod_to_equations; lia).
  assert (ms mod 86400000 / 1000 / 60 mod 60 = ms / 1000 / 60 mod 60)
    as -> by (Z.div_mod_to_equations; lia).
  assert ((ms mod 86400000 / 1000) mod 60 = (ms / 1000) mod 60)
    as -> by (Z.div_mod_to_equations; lia).
  done.
Qed.

Lemma computeDuration_wraps_witness :
  computeDuration (new_Date 5000) (new_Date 0)
  = computeDuration (new_Date 0) (new_Date 86395000).
Proof.
  apply (computeDuration_wraps (new_Date 5000) (new_Date 0)). simpl. lia.
Defined.

(** X10. The output is never empty and has no white space at either end:
    trimming it changes nothing, although the source trims the seconds
    unit only. *)
Theorem computeDuration_trimmed (start end_ : Date) :
  Js.trim (computeDuration start end_) = computeDuration start end_
  ∧ computeDuration start end_ ≠ "".
Proof.
  assert (starts_black (computeDuration start end_)) as Hblack.
  { rewrite computeDuration_closed. cbv zeta. unfold shown.
    repeat case_bool_decide;
      repeat match goal with
             | |- context [ "" +:+ ?x ] => change ("" +:+ x) with x
             end;
      repeat (apply starts_black_app); apply number_to_string_black. }
  split.
  - unfold Js.trim. rewrite trimStart_black by done.
    apply computeDuration_no_trailing_space.
  - intros Hempty. by rewrite Hempty in Hblack.
Qed.

(** ** More on the aggregation *)

Section MoreAggregation.

Implicit Types (includeJobs : string) (jobs : list Job.t).

Lemma completedJobs_app jobs jobs' :
  completedJobs (jobs ++ jobs') = (completedJobs jobs ++ completedJobs jobs')%list.
Proof. apply filter_app. Qed.

Lemma every_excludes_cancelled (l : list Job.t) :
  forallb (λ job, bool_decide (Job.conclusion job ∈ ["success"; "skipped"])) l
  = true →
  existsb (λ job, bool_decide (Job.conclusion job = "cancelled")) l = false.
Proof.
  induction l as [|job l IH]; [done|]. simpl.
  intros [Hjob Hl]%andb_true_iff. rewrite (IH Hl), orb_false_r.
  apply bool_decide_eq_true in Hjob. apply bool_decide_eq_false.
  intros Hc. rewrite Hc, !elem_of_cons, elem_of_nil in Hjob.
  by destruct Hjob as [?|[?|[]]].
Qed.

Lemma resultColor_app_any includeJobs (l l' : list Job.t) :
  resultColor includeJobs (l ++ l')
  = merge_colors (resultColor includeJobs l) (resultColor includeJobs l').
Proof.
  unfold resultColor, styling. rewrite forallb_app, existsb_app.
  pose proof (every_excludes_cancelled l) as Hl.
  pose proof (every_excludes_cancelled l') as Hl'.
  destruct (forallb _ l), (forallb _ l'); simpl;
    rewrite ?Hl, ?Hl' by done; simpl;
    by destruct (existsb _ l), (existsb _ l').
Qed.

End MoreAggregation.

(** X11. The colour of two job lists fetched together is the merge of
    their colours: Warning wins over Danger, Danger over Good. The order of
    the two lists does not matter. *)
Theorem resultColor_app (includeJobs : string) (jobs jobs' : list Job.t) :
  resultColor includeJobs (completedJobs (jobs ++ jobs'))
  = merge_colors (resultColor includeJobs (completedJobs jobs))
                 (resultColor includeJobs (completedJobs jobs'))
  ∧ resultColor includeJobs (completedJobs (jobs ++ jobs'))
    = resultColor includeJobs (completedJobs (jobs' ++ jobs)).
Proof.
  rewrite !completedJobs_app, !resultColor_app_any. split; [done|].
  by destruct (resultColor _ (completedJobs jobs)),
       (resultColor _ (completedJobs jobs')).
Qed.

(** X12. The colour does not depend on the order in which the jobs were
    fetched, and the fields of a reordered fetch are the same fields
    reordered. *)
Theorem resultColor_Permutation (includeJobs : string)
    (jobs jobs' : list Job.t) :
  jobs ≡ₚ jobs' →
  resultColor includeJobs (completedJobs jobs)
  = resultColor includeJobs (completedJobs jobs')
  ∧ jobFields includeJobs (completedJobs jobs)
    ≡ₚ jobFields includeJobs (completedJobs jobs').
Proof.
  intros Hperm.
  assert (completedJobs jobs ≡ₚ completedJobs jobs') as Hfiltered.
  { unfold completedJobs. by rewrite Hperm. }
  assert (resultColor includeJobs (completedJobs jobs)
          = resultColor includeJobs (completedJobs jobs')) as Hcolor.
  { rewrite !resultColor_cases.
    assert (Forall (λ job, Job.conclusion job = "success"
                           ∨ Job.conclusion job = "skipped") (completedJobs jobs)
            ↔ Forall (λ job, Job.conclusion job = "success"
                             ∨ Job.conclusion job = "skipped")
                     (completedJobs jobs')) by (by rewrite Hfiltered).
    assert (Exists (λ job, Job.conclusion job = "cancelled") (completedJobs jobs)
            ↔ Exists (λ job, Job.conclusion job = "cancelled")
                     (completedJobs jobs')) by (by rewrite Hfiltered).
    repeat case_decide; done || (exfalso; tauto). }
  split; [done|]. rewrite !jobFields_cases, Hcolor.
  repeat case_decide; by rewrite ?Hfiltered.
Qed.

Lemma resultColor_Permutation_witness :
  resultColor "true"
    (completedJobs [Sample.concluded "failure"; Sample.concluded "cancelled"])
  = resultColor "true"
      (completedJobs [Sample.concluded "cancelled"; Sample.concluded "failure"]).
Proof.
  exact (proj1 (resultColor_Permutation "true" _ _ (perm_swap _ _ [])%list)).
Defined.

(** X13. On the jobs the source keeps, the colour is Good exactly when
    every one of them concluded success: a skipped job never reaches the
    test that would accept it. *)
Theorem resultColor_Good_iff (includeJobs : string) (jobs : list Job.t) :
  resultColor includeJobs (completedJobs jobs) = Good
  ↔ Forall (λ job, Job.conclusion job = "success") (completedJobs jobs).
Proof.
  rewrite resultColor_cases.
  assert (Forall (λ job, Job.conclusion job = "success"
                         ∨ Job.conclusion job = "skipped") (completedJobs jobs)
          ↔ Forall (λ job, Job.conclusion job = "success") (completedJobs jobs))
    as Hiff.
  { rewrite !Forall_forall. split; intros Hall job Hjob.
    - destruct (Hall job Hjob) as [?|?]; [done|].
      by apply list_elem_of_filter in Hjob as [[_ ?] _].
    - left. by apply Hall. }
  repeat case_decide; split; done || tauto.
Qed.

(** X14. One cancelled job among the jobs kept makes the colour Warning,
    whatever the other jobs concluded, failures included; under the policy
    on-failure the fields are then empty. *)
Theorem cancelled_job_masks_failures (includeJobs : string)
    (jobs : list Job.t) :
  Exists (λ job, Job.conclusion job = "cancelled") (completedJobs jobs) →
  resultColor includeJobs (completedJobs jobs) = Warning
  ∧ jobFields "on-failure" (completedJobs jobs) = [].
Proof.
  intros Hcancelled.
  assert (∀ p, resultColor p (completedJobs jobs) = Warning) as Hcolor.
  { intros p. rewrite resultColor_cases.
    rewrite decide_False, decide_True; [done|done|].
    intros Hall. apply Exists_exists in Hcancelled as (job & Hjob & Hc).
    rewrite Forall_forall in Hall. destruct (Hall job Hjob); congruence. }
  split; [done|]. rewrite jobFields_cases, Hcolor. by repeat case_decide.
Qed.

Lemma cancelled_job_masks_failures_witness :
  resultColor "on-failure"
    (completedJobs [Sample.concluded "failure"; Sample.concluded "cancelled"])
  = Warning
  ∧ jobFields "on-failure"
      (completedJobs [Sample.concluded "failure"; Sample.concluded "cancelled"])
    = [].
Proof.
  apply cancelled_job_masks_failures.
  apply Exists_cons_tl, Exists_cons_hd. reflexivity.
Defined.

(** X15. Every field has an empty title and is short, and there are never
    more fields than jobs fetched. *)
Theorem jobFields_shape (includeJobs : string) (jobs : list Job.t) :
  Forall (λ field, Field.title field = "" ∧ Field.short field = true)
         (jobFields includeJobs (completedJobs jobs))
  ∧ (length (jobFields includeJobs (completedJobs jobs)) ≤ length jobs)%nat.
Proof.
  rewrite jobFields_cases.
  assert (length (completedJobs jobs) ≤ length jobs)%nat by apply length_filter.
  repeat case_decide; simpl; rewrite ?length_fmap;
    (split; [|lia]); try done; by apply Forall_fmap, Forall_true.
Qed.

(** ** More on the payload and the handler *)

Lemma substring_prefix (n : nat) (s : string) :
  String.length (String.substring 0 n s) = (n `min` String.length s)%nat
  ∧ ∃ rest, s = String.substring 0 n s +:+ rest.
Proof.
  revert s. induction n as [|n IH]; intros s.
  - destruct s; (split; [done|]); by eexists.
  - destruct s as [|a s]; [split; [done|by exists ""]|].
    destruct (IH s) as [Hlen [rest Hrest]]. simpl. split; [by rewrite Hlen|].
    exists rest. change (String a s = String a (String.substring 0 n s +:+ rest)).
    by rewrite <- Hrest.
Qed.

(** X16. The commit link shows the first six characters of the commit
    hash, or the whole hash when it is shorter, followed by one space. *)
Theorem commitUrl_short_sha (commit : Commit.t) :
  ∃ short rest,
    Commit.sha commit = short +:+ rest
    ∧ String.length short = (6 `min` String.length (Commit.sha commit))%nat
    ∧ commitUrl commit
      = "<" +:+ Commit.html_url commit +:+ "|" +:+ short +:+ " >".
Proof.
  destruct (substring_prefix 6 (Commit.sha commit)) as [Hlen [rest Hrest]].
  by exists (String.substring 0 6 (Commit.sha commit)), rest.
Qed.

(** X17. The payload has no key besides [attachments] and the four
    overrides, and it has one key more than there are overrides
    configured. *)
Theorem slack_payload_body_keys (inputs : Inputs.t) (context : Context.t)
    (workflowRun : WorkflowRun.t) (commit : Commit.t) (jobs : list Job.t) :
  let body := slack_payload_body inputs context workflowRun commit jobs in
  (∀ k, is_Some (body !! k) →
        k ∈ ["attachments"; "channel"; "username"; "icon_url"; "icon_emoji"])
  ∧ size body = S (length (configured_overrides inputs)).
Proof.
  intros body. split.
  - intros k [v Hv]. subst body. unfold slack_payload_body in Hv.
    apply lookup_union_Some_raw in Hv as [Hv|[_ Hv]].
    + apply elem_of_list_to_map_2, list_elem_of_filter in Hv as [_ Hin].
      unfold slack in Hin. rewrite !elem_of_cons, elem_of_nil in Hin.
      rewrite !elem_of_cons.
      destruct Hin as [?|[?|[?|[?|[]]]]]; simplify_eq;
        repeat ((by left) || right).
    + apply lookup_singleton_Some in Hv as [<- _]. apply elem_of_cons. by left.
  - subst body.
    unfold slack_payload_body, slack, configured_overrides, or_null.
    destruct inputs as [? ? ? channel name icon_url icon_emoji]; simpl.
    rewrite !(filter_cons (λ input : string, input ≠ "")), filter_nil.
    repeat case_decide; try (exfalso; tauto); vm_compute; reflexivity.
Qed.

(** X18. Whatever reaches the handler, the message it reports is not
    empty, and its first call logs the value itself. *)
Theorem handleError_message_not_empty (err : Thrown) :
  head (handleError err) = Some (core_error err)
  ∧ Forall (λ e, match e with
                 | core_setFailed message => message ≠ ""
                 | core_error _ => True
                 end) (handleError err).
Proof.
  split; [done|]. unfold handleError, has_message.
  destruct err as [| |s|name message]; simpl;
    repeat case_bool_decide; repeat constructor; done.
Qed.

Lemma Object_prototype_text (k text : string) :
  Js.Object_prototype !! k = Some text →
  text = "[object Object]" ∨ ∃ f, text = Js.native f.
Proof.
  intros Hk. apply elem_of_list_to_map_2 in Hk.
  apply elem_of_cons in Hk as [[= _ ->]|Hk]; [by left|]. right.
  apply elem_of_cons in Hk as [[= _ ->]|Hk]; [by eexists|].
  apply list_elem_of_fmap in Hk as (f & [= _ ->] & _). by eexists.
Qed.

(** X19. For a job whose conclusion names a member that every object
    inherits, such as constructor or toString, the lookup in the icon table
    finds that member, which is truthy: the entry starts with the member's
    text and the default icon is not used. *)
Theorem jobField_inherited_member (job : Job.t) (text : string) :
  Js.Object_prototype !! Job.conclusion job = Some text →
  Field.value (jobField job)
  = text +:+ " " +:+ jobLink job +:+ " (" +:+
    computeDuration (Job.started_at job) (Job.completed_at job) +:+ ")"
  ∧ text ≠ "✗".
Proof.
  intros Hproto. split.
  - unfold jobField, jobLink. rewrite (jobIcon_inherited _ _ Hproto). simpl.
    by rewrite !append_assoc.
  - by destruct (Object_prototype_text _ _ Hproto) as [->|[f ->]].
Qed.

Lemma jobField_inherited_member_witness :
  Field.value (jobField (Sample.concluded "toString"))
  = "function toString() { [native code] } "
    +:+ jobLink (Sample.concluded "toString") +:+ " (59s)".
Proof.
  destruct (jobField_inherited_member (Sample.concluded "toString")
              (Js.native "toString") eq_refl) as [-> _].
  reflexivity.
Defined.
